(** * LearnFlow code sandbox

    A shallow embedding of [src/api/sandbox/executor.py] (the worker
    [_execute_code], the restricted builtins of [_create_safe_builtins],
    the supervisor [execute_sandboxed]) and of the endpoint [execute_code]
    of [src/api/sandbox/main.py], followed by the properties the
    specification states about them.

    Everything the Python code obtains from its surroundings (the platform,
    the interpreter's [compile], the clock, the fate of the child process)
    is collected in a record [world]; the behaviour of a compiled snippet is
    a value of type [prog], interpreted against the restricted environment
    the worker builds. *)

From Stdlib Require Import ZArith QArith String Ascii List Bool Lia DecimalString.
From stdpp Require Import base gmap strings.
Import ListNotations.
Local Open Scope string_scope.

(** ** Python strings *)

Module PyStr.

(** [s.startswith(p)] *)
Definition startswith (s p : string) : bool := String.prefix p s.

(** [p in s] for two strings: [p] occurs somewhere in [s]. *)
Fixpoint contains (p s : string) : bool :=
  String.prefix p s ||
  match s with
  | EmptyString => false
  | String _ s' => contains p s'
  end.

(** [str.lower] on the ASCII range: [A]-[Z] map to [a]-[z], every other
    byte is left alone. *)
Definition lower_char (c : ascii) : ascii :=
  let n := nat_of_ascii c in
  if (65 <=? n)%nat && (n <=? 90)%nat then ascii_of_nat (n + 32) else c.

Fixpoint lower (s : string) : string :=
  match s with
  | EmptyString => EmptyString
  | String c s' => String (lower_char c) (lower s')
  end.

(** [str(n)] for an integer, as an f-string renders it. *)
Definition str_int (n : Z) : string := NilZero.string_of_int (Z.to_int n).

(** [str(x)] for a value that is an integer or [None]. *)
Definition str_opt_int (x : option Z) : string :=
  match x with
  | Some n => str_int n
  | None => "None"
  end.

(** The line feed. *)
Definition nl : string := String (ascii_of_nat 10) EmptyString.

(** [int(x)] for a real number: truncation towards zero. *)
Definition py_int (x : Q) : Z := Z.quot (Qnum x) (Zpos (Qden x)).

End PyStr.

(** ** Python exceptions

    An exception is known by the classes it is an instance of (its own
    class first, then its bases up to [BaseException]), by [str(e)], by the
    [msg] and [lineno] attributes a [SyntaxError] carries, and by the stack
    frames [traceback.format_exc] prints for it. *)

Module PyExc.

Record exn := {
  mro : list string;
  exn_str : string;
  exn_msg : string;
  exn_lineno : option Z;
  exn_frames : string
}.

Definition isinstance (e : exn) (cls : string) : bool :=
  existsb (String.eqb cls) (mro e).

Definition class_name (e : exn) : string := hd "BaseException" (mro e).

(** An exception raised with a single message argument. *)
Definition mk (classes : list string) (message : string) : exn :=
  {| mro := classes; exn_str := message; exn_msg := message;
     exn_lineno := None; exn_frames := "" |}.

Definition ImportError (m : string) : exn :=
  mk ["ImportError"; "Exception"; "BaseException"] m.
Definition PermissionError (m : string) : exn :=
  mk ["PermissionError"; "OSError"; "Exception"; "BaseException"] m.
Definition OSError (m : string) : exn :=
  mk ["OSError"; "Exception"; "BaseException"] m.
Definition TimeoutError (m : string) : exn :=
  mk ["TimeoutError"; "OSError"; "Exception"; "BaseException"] m.
Definition MemoryError (m : string) : exn :=
  mk ["MemoryError"; "Exception"; "BaseException"] m.
Definition NameError (m : string) : exn :=
  mk ["NameError"; "Exception"; "BaseException"] m.
Definition TypeError (m : string) : exn :=
  mk ["TypeError"; "Exception"; "BaseException"] m.
Definition ValueError (m : string) : exn :=
  mk ["ValueError"; "Exception"; "BaseException"] m.
Definition ZeroDivisionError (m : string) : exn :=
  mk ["ZeroDivisionError"; "ArithmeticError"; "Exception"; "BaseException"] m.
Definition SystemExit (m : string) : exn :=
  mk ["SystemExit"; "BaseException"] m.
Definition SyntaxError (m : string) (line : option Z) : exn :=
  {| mro := ["SyntaxError"; "Exception"; "BaseException"];
     exn_str := m; exn_msg := m; exn_lineno := line; exn_frames := "" |}.

(** [traceback.format_exc()] for the exception being handled. *)
Definition format_exc (e : exn) : string :=
  "Traceback (most recent call last):" ++ PyStr.nl ++ exn_frames e
    ++ class_name e ++ ": " ++ exn_str e ++ PyStr.nl.

End PyExc.

(** ** executor.py *)

Module Executor.
Import PyStr PyExc.

(** The dictionary every path of the executor returns or enqueues. *)
Record result := {
  stdout : string;
  stderr : string;
  success : bool;
  error_type : option string;
  execution_time_ms : Z
}.

Definition BLOCKED_MODULES : gset string :=
  {[ "subprocess"; "os.system"; "shutil"; "socket"; "http";
     "urllib"; "requests"; "ftplib"; "smtplib"; "telnetlib";
     "xmlrpc"; "ctypes"; "importlib"; "code"; "codeop";
     "compile"; "compileall"; "py_compile"; "zipimport";
     "pkgutil"; "ensurepip"; "pip"; "venv"; "webbrowser";
     "antigravity"; "turtle"; "tkinter"; "multiprocessing";
     "threading"; "signal"; "pathlib" ]}.

Definition BLOCKED_BUILTINS : gset string :=
  {[ "exec"; "eval"; "compile"; "__import__"; "open";
     "breakpoint"; "exit"; "quit" ]}.

(** *** What a compiled snippet does

    The behaviour of student code as far as the sandbox can observe it:
    it writes to [sys.stdout] and [sys.stderr], runs [import]
    statements, calls names it finds in its globals, raises, returns, or
    keeps running.  [TryImport] and [TryCall] are an [import] or a call
    inside a [try] whose [except Exception] clause continues with the
    handler; [Import] and [Call] let the exception propagate. *)
Inductive prog : Type :=
| Done
| Write (text : string) (k : prog)
| WriteErr (text : string) (k : prog)
| Import (name : string) (k : prog)
| TryImport (name : string) (k handler : prog)
| Call (f : string) (args : list string) (k : prog)
| TryCall (f : string) (args : list string) (k handler : prog)
| Raise (e : exn)
| Spin (swallows_alarm : bool).

Inductive rlimit := RLIMIT_AS | RLIMIT_CPU | RLIMIT_NPROC.

(** What the worker process does to the world outside its own memory. *)
Inductive event :=
| Setrlimit (r : rlimit) (soft hard : Z)
| Alarm (seconds : Z)
| Exec
| Imported (name : string)
| Opened (file mode : string)
| Called (f : string) (args : list string).

(** *** The surroundings of one request *)
Record world := {
  (** [hasattr(resource, "setrlimit")] and [hasattr(signal, "SIGALRM")] *)
  has_setrlimit : bool;
  has_SIGALRM : bool;
  (** the exception [resource.setrlimit] raises for a request, if any *)
  setrlimit_raises : rlimit -> Z -> Z -> option exn;
  (** [tempfile.gettempdir()] *)
  gettempdir : string;
  (** [dir(builtins)] *)
  dir_builtins : list string;
  (** the interpreter's [compile(code, "<student_code>", "exec")] *)
  compile : string -> exn + prog;
  (** the exception the unrestricted [__import__], [open] and the other
      builtins raise for the given arguments, if any *)
  original_import : string -> option exn;
  original_open : string -> string -> option exn;
  call_builtin : string -> list string -> option exn;
  (** the two readings of [time.time()] in the worker, in seconds *)
  time_start : Q;
  time_end : Q;
  (** the message of the [OSError] with which [process.start()] fails,
      if it does *)
  start_fails : option string;
  (** seconds from [process.start()] to the exit of a worker that exits *)
  wall_time : Q
}.

(** *** The worker process: state and control *)
Record proc := {
  stdout_capture : string;
  stderr_capture : string;
  result_queue : list result;
  log : list event
}.

Definition fresh : proc :=
  {| stdout_capture := ""; stderr_capture := ""; result_queue := []; log := [] |}.

(** A computation returns, raises, or never comes back. *)
Inductive outcome (A : Type) : Type :=
| Ok (a : A)
| Raised (e : exn)
| Hang.
Arguments Ok {A} a.
Arguments Raised {A} e.
Arguments Hang {A}.

Definition M (A : Type) : Type := proc -> outcome A * proc.

Definition ret {A} (a : A) : M A := fun s => (Ok a, s).
Definition raise {A} (e : exn) : M A := fun s => (Raised e, s).
Definition hang {A} : M A := fun s => (Hang, s).

Definition bind {A B} (m : M A) (k : A -> M B) : M B :=
  fun s =>
    match m s with
    | (Ok a, s') => k a s'
    | (Raised e, s') => (Raised e, s')
    | (Hang, s') => (Hang, s')
    end.

Declare Scope py_scope.
Delimit Scope py_scope with py.
Notation "x <- m ;; k" := (bind m (fun x => k))
  (at level 100, m at next level, right associativity) : py_scope.
Notation "m ;; k" := (bind m (fun _ => k))
  (at level 100, right associativity) : py_scope.
Local Open Scope py_scope.

Definition get : M proc := fun s => (Ok s, s).

Definition emit (ev : event) : M unit :=
  fun s => (Ok tt, {| stdout_capture := stdout_capture s;
                      stderr_capture := stderr_capture s;
                      result_queue := result_queue s;
                      log := log s ++ [ev] |}).

(** [sys.stdout.write] and [sys.stderr.write] while the streams are
    redirected to the two [StringIO] buffers. *)
Definition write_out (text : string) : M unit :=
  fun s => (Ok tt, {| stdout_capture := stdout_capture s ++ text;
                      stderr_capture := stderr_capture s;
                      result_queue := result_queue s;
                      log := log s |}).

Definition write_err (text : string) : M unit :=
  fun s => (Ok tt, {| stdout_capture := stdout_capture s;
                      stderr_capture := stderr_capture s ++ text;
                      result_queue := result_queue s;
                      log := log s |}).

(** [result_queue.put] *)
Definition put (r : result) : M unit :=
  fun s => (Ok tt, {| stdout_capture := stdout_capture s;
                      stderr_capture := stderr_capture s;
                      result_queue := result_queue s ++ [r];
                      log := log s |}).

(** [try: body / except ...:] where [handler e] is the clause that
    matches [e], if one does. *)
Definition try_except {A} (body : M A) (handler : exn -> option (M A)) : M A :=
  fun s =>
    match body s with
    | (Raised e, s') =>
        match handler e with
        | Some h => h s'
        | None => (Raised e, s')
        end
    | r => r
    end.

(** [try: body / finally: fin] *)
Definition try_finally {A} (body : M A) (fin : M unit) : M A :=
  fun s =>
    match body s with
    | (Ok a, s') => (_ <- fin ;; ret a) s'
    | (Raised e, s') => (_ <- fin ;; raise e) s'
    | (Hang, s') => (Hang, s')
    end.

(** Raise what an unrestricted operation raises, if it raises. *)
Definition reraise (r : option exn) : M unit :=
  match r with
  | Some e => raise e
  | None => ret tt
  end.

(** *** The restricted builtins *)

(** The values student code can reach through its globals. *)
Inductive pyval :=
| Builtin (name : string)
| SafeOpen
| SafeImport
| StrVal (s : string)
| DictSelf.

Definition safe_open (w : world) (file mode : string) : M unit :=
  let filepath := file in
  if negb (startswith filepath "/tmp") && negb (startswith filepath (gettempdir w))
  then raise (PermissionError "File access denied: only /tmp is allowed")
  else emit (Opened file mode) ;; reraise (original_open w file mode).

Definition _create_safe_builtins (w : world) : gmap string pyval :=
  let safe :=
    fold_left
      (fun (safe : gmap string pyval) (name : string) =>
         if startswith name "_" && negb (name =? "__name__") then safe
         else if bool_decide (lower name ∈ BLOCKED_BUILTINS) then safe
         else <[name := Builtin name]> safe)
      (dir_builtins w) ∅ in
  <["__builtins__" := DictSelf]>
    (<["__name__" := StrVal "__main__"]>
       (<["open" := SafeOpen]> safe)).

Definition safe_import (w : world) (name : string) : M unit :=
  if bool_decide (name ∈ BLOCKED_MODULES)
     || existsb (fun m => startswith name (m ++ ".")) (elements BLOCKED_MODULES)
  then raise (ImportError ("Module '" ++ name ++ "' is not allowed in the sandbox"))
  else emit (Imported name) ;; reraise (original_import w name).

(** Calling a value found in the globals. *)
Definition call_value (w : world) (v : pyval) (args : list string) : M unit :=
  match v with
  | SafeOpen =>
      match args with
      | [] => raise (TypeError "safe_open() missing 1 required positional argument: 'file'")
      | [file] => safe_open w file "r"
      | file :: mode :: _ => safe_open w file mode
      end
  | SafeImport =>
      match args with
      | [] => raise (TypeError "safe_import() missing 1 required positional argument: 'name'")
      | name :: _ => safe_import w name
      end
  | Builtin f => emit (Called f args) ;; reraise (call_builtin w f args)
  | StrVal _ => raise (TypeError "'str' object is not callable")
  | DictSelf => raise (TypeError "'dict' object is not callable")
  end.

(** A call of the name [f]: globals and builtins are the same dictionary. *)
Definition call_name (w : world) (g : gmap string pyval) (f : string)
    (args : list string) : M unit :=
  match g !! f with
  | Some v => call_value w v args
  | None => raise (NameError ("name '" ++ f ++ "' is not defined"))
  end.

(** An [import] statement resolves [__import__] in the builtins. *)
Definition import_stmt (w : world) (g : gmap string pyval) (name : string) : M unit :=
  match g !! "__import__" with
  | Some v => call_value w v [name]
  | None => raise (ImportError "__import__ not found")
  end.

Definition except_Exception {A} (h : M A) (e : exn) : option (M A) :=
  if isinstance e "Exception" then Some h else None.

(** [exec(compiled, safe_globals)].  [armed] tells whether the alarm set
    before can interrupt the code; steps other than [Spin] are taken to
    finish before it rings. *)
Fixpoint exec (w : world) (g : gmap string pyval) (armed : bool) (p : prog) : M unit :=
  match p with
  | Done => ret tt
  | Write text k => write_out text ;; exec w g armed k
  | WriteErr text k => write_err text ;; exec w g armed k
  | Import name k => import_stmt w g name ;; exec w g armed k
  | TryImport name k handler =>
      ok <- try_except (import_stmt w g name ;; ret true)
                       (except_Exception (ret false)) ;;
      if ok : bool then exec w g armed k else exec w g armed handler
  | Call f args k => call_name w g f args ;; exec w g armed k
  | TryCall f args k handler =>
      ok <- try_except (call_name w g f args ;; ret true)
                       (except_Exception (ret false)) ;;
      if ok : bool then exec w g armed k else exec w g armed handler
  | Raise e => raise e
  | Spin swallows_alarm =>
      if armed && negb swallows_alarm
      then raise (TimeoutError "Code execution timed out")
      else hang
  end.

(** *** The worker: [_execute_code] *)

(** [int((time.time() - start_time) * 1000)] *)
Definition elapsed_ms (w : world) : Z :=
  py_int ((time_end w - time_start w) * inject_Z 1000).

(** [resource.setrlimit(r, (soft, hard))] *)
Definition setrlimit (w : world) (r : rlimit) (soft hard : Z) : M unit :=
  match setrlimit_raises w r soft hard with
  | Some e => raise e
  | None => emit (Setrlimit r soft hard)
  end.

Definition py_compile (w : world) (code : string) : M prog :=
  match compile w code with
  | inl e => raise e
  | inr p => ret p
  end.

(** The [except] clauses of the inner [try], in the order of the source. *)
Definition inner_handlers (w : world) (timeout memory_mb : Z) (e : exn)
    : option (M unit) :=
  if isinstance e "SyntaxError" then
    Some (s <- get ;;
          put {| stdout := stdout_capture s;
                 stderr := "SyntaxError: " ++ exn_msg e ++ " (line "
                             ++ str_opt_int (exn_lineno e) ++ ")";
                 success := false;
                 error_type := Some "syntax";
                 execution_time_ms := elapsed_ms w |})
  else if isinstance e "TimeoutError" then
    Some (s <- get ;;
          put {| stdout := stdout_capture s;
                 stderr := "TimeoutError: Code exceeded " ++ str_int timeout
                             ++ " second time limit";
                 success := false;
                 error_type := Some "timeout";
                 execution_time_ms := timeout * 1000 |})
  else if isinstance e "MemoryError" then
    Some (s <- get ;;
          put {| stdout := stdout_capture s;
                 stderr := "MemoryError: Code exceeded " ++ str_int memory_mb
                             ++ "MB memory limit";
                 success := false;
                 error_type := Some "memory";
                 execution_time_ms := elapsed_ms w |})
  else if isinstance e "Exception" then
    Some (let error_tb := format_exc e in
          let error_type := "runtime" in
          s <- get ;;
          put {| stdout := stdout_capture s;
                 stderr := error_tb;
                 success := false;
                 error_type := Some error_type;
                 execution_time_ms := elapsed_ms w |})
  else None.

(** The [except Exception] clause of the outer [try]. *)
Definition outer_handler (w : world) (e : exn) : option (M unit) :=
  if isinstance e "Exception" then
    Some (put {| stdout := "";
                 stderr := exn_str e;
                 success := false;
                 error_type := Some "runtime";
                 execution_time_ms := elapsed_ms w |})
  else None.

Definition _execute_code (w : world) (code : string) (timeout memory_mb : Z)
    : M unit :=
  try_except
    ((if has_setrlimit w then
        let mem_bytes := (memory_mb * 1024 * 1024)%Z in
        setrlimit w RLIMIT_AS mem_bytes mem_bytes ;;
        setrlimit w RLIMIT_CPU (timeout + 1) (timeout + 2) ;;
        setrlimit w RLIMIT_NPROC 0 0
      else ret tt) ;;
     (if has_SIGALRM w then emit (Alarm timeout) else ret tt) ;;
     try_finally
       (try_except
          (let safe_globals :=
             <["__import__" := SafeImport]>
               (<["__builtins__" := DictSelf]> (_create_safe_builtins w)) in
           compiled <- py_compile w code ;;
           emit Exec ;;
           exec w safe_globals (has_SIGALRM w && (0 <? timeout)%Z) compiled ;;
           s <- get ;;
           put {| stdout := stdout_capture s;
                  stderr := stderr_capture s;
                  success := true;
                  error_type := None;
                  execution_time_ms := elapsed_ms w |})
          (inner_handlers w timeout memory_mb))
       (if has_SIGALRM w then emit (Alarm 0) else ret tt))
    (outer_handler w).

(** *** The supervisor: [execute_sandboxed] *)

(** What the parent does to the child process. *)
Inductive sup_event :=
| Start
| Join (seconds : Z)
| Kill.

Definition timeout_result (timeout : Z) : result :=
  {| stdout := "";
     stderr := "TimeoutError: Code exceeded " ++ str_int timeout
                 ++ " second time limit";
     success := false;
     error_type := Some "timeout";
     execution_time_ms := timeout * 1000 |}.

Definition no_result : result :=
  {| stdout := "";
     stderr := "Execution failed: no result returned";
     success := false;
     error_type := Some "runtime";
     execution_time_ms := 0 |}.

(** [process.is_alive()] after [process.join(timeout + 2)]: the child
    never comes back, or needs longer than the join waited. *)
Definition is_alive (w : world) (timeout : Z) (o : outcome unit) : bool :=
  match o with
  | Hang => true
  | _ => negb (Qle_bool (wall_time w) (inject_Z (timeout + 2)))
  end.

Definition execute_sandboxed (w : world) (code : string) (timeout memory_mb : Z)
    : (exn + result) * list sup_event :=
  match start_fails w with
  | Some m => (inl (OSError m), [])
  | None =>
      let '(o, child) := _execute_code w code timeout memory_mb fresh in
      if is_alive w timeout o then
        (inr (timeout_result timeout),
         [Start; Join (timeout + 2); Kill; Join 2])
      else
        match result_queue child with
        | r :: _ => (inr r, [Start; Join (timeout + 2)])
        | [] => (inr no_result, [Start; Join (timeout + 2)])
        end
  end.


End Executor.

(** ** main.py *)

Module Main.
Import PyStr PyExc.

Record ExecuteRequest := {
  code : string;
  timeout : Z;
  memory_mb : Z
}.


Record ExecuteResponse := {
  stdout : string;
  stderr : string;
  success : bool;
  error_type : option string;
  execution_time_ms : Z
}.

(** The response built from the keys of the executor's dictionary. *)
Definition of_result (r : Executor.result) : ExecuteResponse :=
  {| stdout := Executor.stdout r;
     stderr := Executor.stderr r;
     success := Executor.success r;
     error_type := Executor.error_type r;
     execution_time_ms := Executor.execution_time_ms r |}.

Definition dangerous : list string :=
  ["import os"; "import subprocess"; "import socket"; "import shutil";
   "__import__"; "eval("; "exec("; "compile("].

Definition rejected (pattern : string) : ExecuteResponse :=
  {| stdout := "";
     stderr := "SecurityError: '" ++ pattern ++ "' is not allowed in the sandbox";
     success := false;
     error_type := Some "runtime";
     execution_time_ms := 0 |}.

Definition internal_error (e : exn) : ExecuteResponse :=
  {| stdout := "";
     stderr := "InternalError: " ++ exn_str e;
     success := false;
     error_type := Some "runtime";
     execution_time_ms := 0 |}.

(** The handler of [POST /execute]: the response, or the exception that
    escapes it, and what it did to worker processes. *)
Definition execute_code (w : Executor.world) (request : ExecuteRequest)
    : (exn + ExecuteResponse) * list Executor.sup_event :=
  let code_lower := lower (code request) in
  match find (fun pattern => contains (lower pattern) code_lower) dangerous with
  | Some pattern => (inr (rejected pattern), [])
  | None =>
      match Executor.execute_sandboxed w (code request) (timeout request)
              (memory_mb request) with
      | (inr result, evs) => (inr (of_result result), evs)
      | (inl e, evs) =>
          if isinstance e "Exception" then (inr (internal_error e), evs)
          else (inl e, evs)
      end
  end.

End Main.

(** ** Concrete hosts and snippets

    A Unix-like host on which the theorems below are instantiated, and the
    behaviour of a handful of snippets, those of [tests/test_sandbox.py]
    among them. *)

Module Demo.
Import PyStr PyExc Executor.

Definition try_import_source : string :=
  "try: import subprocess" ++ nl ++ "except Exception: print('denied')".

Definition snippets (code : string) : exn + prog :=
  if code =? "print('hello')" then inr (Write ("hello" ++ nl) Done)
  else if code =? "def foo(" then
    inl (SyntaxError "'(' was never closed" (Some 1%Z))
  else if code =? "print(1/0)" then
    inr (Raise (ZeroDivisionError "division by zero"))
  else if code =? "import subprocess; print('escaped')" then
    inr (Import "subprocess" (Write ("escaped" ++ nl) Done))
  else if code =? "import os.path; print('ok')" then
    inr (Import "os.path" (Write ("ok" ++ nl) Done))
  else if code =? try_import_source then
    inr (TryImport "subprocess" Done (Write ("denied" ++ nl) Done))
  else if code =? "open('/etc/passwd')" then
    inr (Call "open" ["/etc/passwd"] Done)
  else if code =? "open('/tmp/../etc/passwd')" then
    inr (Call "open" ["/tmp/../etc/passwd"] Done)
  else if code =? "open('/tmpfoo/notes.txt', 'w')" then
    inr (Call "open" ["/tmpfoo/notes.txt"; "w"] Done)
  else if code =? "x = [0] * 10**10" then
    inr (Raise (MemoryError ""))
  else if code =? "while True: pass" then inr (Spin false)
  else if code =? "raise SystemExit" then inr (Raise (SystemExit ""))
  else inr Done.

Definition builtin_names : list string :=
  ["ArithmeticError"; "Exception"; "ImportError"; "SystemExit";
   "__build_class__"; "__doc__"; "__import__"; "__name__";
   "abs"; "breakpoint"; "compile"; "eval"; "exec"; "exit"; "len";
   "open"; "print"; "quit"; "range"; "str"].

(** A host with or without [setrlimit] and [SIGALRM], a worker that
    needs [wall] seconds, and a [process.start()] that fails or not. *)
Definition host (rl alrm : bool) (wall : Q) (start : option string) : world :=
  {| has_setrlimit := rl;
     has_SIGALRM := alrm;
     setrlimit_raises := fun _ _ _ => None;
     gettempdir := "/tmp";
     dir_builtins := builtin_names;
     compile := snippets;
     original_import := fun _ => None;
     original_open := fun _ _ => None;
     call_builtin := fun _ _ => None;
     time_start := 100 # 1;
     time_end := 100012 # 1000;
     start_fails := start;
     wall_time := wall |}.

Definition unix : world := host true true (1 # 20) None.

End Demo.

(** ** Notions the properties are stated with *)

Module Obs.
Import PyStr PyExc Executor.

(** The dictionary [safe_globals] of [_execute_code] once its three
    assignments are done. *)
Definition safe_globals (w : world) : gmap string pyval :=
  <["__import__" := SafeImport]>
    (<["__builtins__" := DictSelf]> (_create_safe_builtins w)).

(** Whether [signal.alarm(timeout)] left an alarm pending. *)
Definition armed (w : world) (timeout : Z) : bool :=
  has_SIGALRM w && (0 <? timeout)%Z.

(** The three limits the worker asks for. *)
Definition limits (timeout memory_mb : Z) : list event :=
  [Setrlimit RLIMIT_AS (memory_mb * 1024 * 1024) (memory_mb * 1024 * 1024);
   Setrlimit RLIMIT_CPU (timeout + 1) (timeout + 2);
   Setrlimit RLIMIT_NPROC 0 0].

(** The platform accepts each of the three limits where it has
    [setrlimit]. *)
Definition limits_accepted (w : world) (timeout memory_mb : Z) : bool :=
  negb (has_setrlimit w)
  || forallb (fun ev =>
                match ev with
                | Setrlimit r soft hard =>
                    match setrlimit_raises w r soft hard with
                    | None => true
                    | Some _ => false
                    end
                | _ => true
                end) (limits timeout memory_mb).

(** A request served without a failure of the host itself: the limits
    are accepted, the worker process starts, and a worker that exits
    does so before the supervisor's join gives up. *)
Definition nominal (w : world) (timeout memory_mb : Z) : bool :=
  limits_accepted w timeout memory_mb
  && match start_fails w with None => true | Some _ => false end
  && Qle_bool (wall_time w) (inject_Z (timeout + 2)).

(** The log of the worker when it reaches [compile]. *)
Definition setup_log (w : world) (timeout memory_mb : Z) : list event :=
  (if has_setrlimit w then limits timeout memory_mb else [])
  ++ (if has_SIGALRM w then [Alarm timeout] else []).

(** The worker process at the moment [exec] is entered. *)
Definition at_exec (w : world) (timeout memory_mb : Z) : proc :=
  {| stdout_capture := ""; stderr_capture := ""; result_queue := [];
     log := setup_log w timeout memory_mb ++ [Exec] |}.

(** The run of a compiled snippet inside the worker. *)
Definition run_snippet (w : world) (timeout memory_mb : Z) (p : prog)
    : outcome unit * proc :=
  exec w (safe_globals w) (armed w timeout) p (at_exec w timeout memory_mb).

(** The events that show student code at work. *)
Definition user_event (ev : event) : bool :=
  match ev with
  | Exec | Imported _ | Opened _ _ | Called _ _ => true
  | Setrlimit _ _ _ | Alarm _ => false
  end.

(** A log without any trace of student code. *)
Definition quiet (lg : list event) : bool :=
  forallb (fun ev => negb (user_event ev)) lg.

(** A module name on the denylist, or a dotted submodule of one. *)
Definition denylisted (name : string) : Prop :=
  name ∈ BLOCKED_MODULES
  \/ exists m rest, m ∈ BLOCKED_MODULES /\ name = m ++ "." ++ rest.


(** [error_type] is [None] exactly on success. *)
Definition consistent (r : result) : Prop :=
  error_type r = None <-> success r = true.

(** *** Relations between two states of the worker process *)

(** Every run of [m] takes a state to one related to it by [R]. *)
Definition respects (R : proc -> proc -> Prop) {A} (m : M A) : Prop :=
  forall s, R s (snd (m s)).

(** The result queue is left alone. *)
Definition same_queue (s s' : proc) : Prop :=
  result_queue s' = result_queue s.

(** The log only grows. *)
Definition log_grows (s s' : proc) : Prop :=
  exists l, log s' = (log s ++ l)%list.

(** Results are only appended to the queue, and each of them is one of
    those the worker builds for the given request. *)
Inductive worker_result (w : world) (timeout : Z) : result -> Prop :=
| wr_success out err :
    worker_result w timeout
      {| stdout := out; stderr := err; success := true;
         error_type := None; execution_time_ms := elapsed_ms w |}
| wr_timeout out err :
    worker_result w timeout
      {| stdout := out; stderr := err; success := false;
         error_type := Some "timeout"; execution_time_ms := timeout * 1000 |}
| wr_failure out err kind :
    In kind ["syntax"; "memory"; "runtime"] ->
    worker_result w timeout
      {| stdout := out; stderr := err; success := false;
         error_type := Some kind; execution_time_ms := elapsed_ms w |}.

Definition enqueues (w : world) (timeout : Z) (s s' : proc) : Prop :=
  exists l, result_queue s' = (result_queue s ++ l)%list
            /\ Forall (worker_result w timeout) l.


(** The alarm the [finally] clause cancels. *)
Definition disarm (w : world) : list event :=
  if has_SIGALRM w then [Alarm 0] else [].

(** *** Paths

    What it means for a path to lie inside a directory: both are
    absolute, and once [.] and [..] and empty components are resolved
    the components of the directory are the first components of the path. *)
Fixpoint components_from (acc : string) (s : string) : list string :=
  match s with
  | EmptyString => [acc]
  | String c s' =>
      if Ascii.eqb c "/"%char then acc :: components_from "" s'
      else components_from (acc ++ String c EmptyString) s'
  end.

Definition resolve (path : string) : list string :=
  rev (fold_left
         (fun (stack : list string) (c : string) =>
            if (c =? "") || (c =? ".") then stack
            else if c =? ".." then tl stack
            else c :: stack)
         (components_from "" path) []).

Fixpoint list_prefix (l1 l2 : list string) : bool :=
  match l1, l2 with
  | [], _ => true
  | _ :: _, [] => false
  | a :: l1', b :: l2' => (a =? b) && list_prefix l1' l2'
  end.

Definition inside (dir path : string) : bool :=
  startswith dir "/" && startswith path "/"
  && list_prefix (resolve dir) (resolve path).

End Obs.

(** * Properties *)

Import PyStr PyExc Executor Obs.

(** ** Strings *)

Lemma append_nil (s : string) : "" ++ s = s.
Proof. reflexivity. Qed.

Lemma append_cons (c : ascii) (a b : string) :
  String c a ++ b = String c (a ++ b).
Proof. reflexivity. Qed.

Lemma prefix_app (p s : string) : String.prefix p (p ++ s) = true.
Proof.
  induction p as [|c p IH]; [destruct s; reflexivity|].
  rewrite append_cons. simpl.
  destruct (ascii_dec c c) as [_|ne]; [exact IH | contradiction].
Qed.

Lemma prefix_split (p s : string) :
  String.prefix p s = true -> exists t, s = p ++ t.
Proof.
  revert s; induction p as [|c p IH]; intros s H.
  - exists s; reflexivity.
  - destruct s as [|d s]; [discriminate|]. simpl in H.
    destruct (ascii_dec c d) as [->|_]; [|discriminate].
    destruct (IH _ H) as [t ->]. exists t; reflexivity.
Qed.

Lemma contains_prefix (p s : string) :
  String.prefix p s = true -> contains p s = true.
Proof.
  intros H. destruct s; cbn [contains]; rewrite H; reflexivity.
Qed.

Lemma contains_intro (p a b : string) : contains p (a ++ p ++ b) = true.
Proof.
  induction a as [|c a IH].
  - rewrite append_nil. apply contains_prefix, prefix_app.
  - rewrite append_cons. cbn [contains]. rewrite IH. apply orb_true_r.
Qed.

Lemma contains_elim (p s : string) :
  contains p s = true -> exists a b, s = a ++ p ++ b.
Proof.
  induction s as [|c s IH]; cbn [contains]; intros H.
  - rewrite orb_false_r in H. destruct (prefix_split _ _ H) as [t E].
    exists "", t. exact E.
  - apply orb_true_iff in H as [H|H].
    + destruct (prefix_split _ _ H) as [t E]. exists "", t. exact E.
    + destruct (IH H) as (a & b & ->). exists (String c a), b. reflexivity.
Qed.

Lemma lower_app (a b : string) : lower (a ++ b) = lower a ++ lower b.
Proof.
  induction a as [|c a IH]; [reflexivity|].
  rewrite append_cons. simpl. rewrite IH. reflexivity.
Qed.



(** ** A small program logic for the worker

    [respects R m]: every run of [m] takes a process state to one related
    to it by [R].  The rules below are used with three relations: the
    result queue is untouched, the log only grows, and every result
    added to the queue is of a given kind. *)

Section Respects.
Variable R : proc -> proc -> Prop.
Hypothesis R_refl : forall s, R s s.
Hypothesis R_trans : forall a b c, R a b -> R b c -> R a c.

Local Abbreviation resp := (respects R).

Lemma respects_ret {A} (a : A) : resp (ret a).
Proof. intros s; apply R_refl. Qed.

Lemma respects_raise {A} (e : exn) : resp (@raise A e).
Proof. intros s; apply R_refl. Qed.

Lemma respects_hang {A} : resp (@hang A).
Proof. intros s; apply R_refl. Qed.

Lemma respects_get : resp get.
Proof. intros s; apply R_refl. Qed.

Lemma respects_reraise (r : option exn) : resp (reraise r).
Proof. destruct r; [apply respects_raise | apply respects_ret]. Qed.

Lemma respects_bind {A B} (m : M A) (k : A -> M B) :
  resp m -> (forall a, resp (k a)) -> resp (bind m k).
Proof.
  intros Hm Hk s. unfold bind.
  specialize (Hm s). destruct (m s) as [[a|e|] s']; simpl in *; trivial.
  eapply R_trans; [exact Hm | apply Hk].
Qed.

Lemma respects_try_except {A} (body : M A) (handler : exn -> option (M A)) :
  resp body ->
  (forall e h, handler e = Some h -> resp h) ->
  resp (try_except body handler).
Proof.
  intros Hb Hh s. unfold try_except.
  specialize (Hb s). destruct (body s) as [[a|e|] s']; simpl in *; trivial.
  destruct (handler e) as [h|] eqn:E; simpl; trivial.
  eapply R_trans; [exact Hb | eapply Hh, E].
Qed.

Lemma respects_try_finally {A} (body : M A) (fin : M unit) :
  resp body -> resp fin -> resp (try_finally body fin).
Proof.
  intros Hb Hf s. unfold try_finally.
  specialize (Hb s). destruct (body s) as [[a|e|] s']; simpl in *; trivial;
    (eapply R_trans; [exact Hb|]);
    apply respects_bind; auto using respects_ret, respects_raise.
Qed.

Lemma respects_if {A} (b : bool) (m1 m2 : M A) :
  resp m1 -> resp m2 -> resp (if b then m1 else m2).
Proof. destruct b; trivial. Qed.

(** The operations student code can reach. *)
Hypothesis R_emit : forall ev, resp (emit ev).
Hypothesis R_write_out : forall text, resp (write_out text).
Hypothesis R_write_err : forall text, resp (write_err text).

Lemma respects_safe_open (w : world) (file mode : string) :
  resp (safe_open w file mode).
Proof.
  unfold safe_open. apply respects_if; [apply respects_raise|].
  apply respects_bind; auto using respects_reraise.
Qed.

Lemma respects_safe_import (w : world) (name : string) :
  resp (safe_import w name).
Proof.
  unfold safe_import. apply respects_if; [apply respects_raise|].
  apply respects_bind; auto using respects_reraise.
Qed.

Lemma respects_call_value (w : world) (v : pyval) (args : list string) :
  resp (call_value w v args).
Proof.
  destruct v; simpl; auto using respects_raise.
  - apply respects_bind; auto using respects_reraise.
  - destruct args as [|file [|mode rest]];
      auto using respects_raise, respects_safe_open.
  - destruct args; auto using respects_raise, respects_safe_import.
Qed.

Lemma respects_call_name (w : world) (g : gmap string pyval) (f : string)
    (args : list string) :
  resp (call_name w g f args).
Proof.
  unfold call_name. destruct (g !! f);
    auto using respects_raise, respects_call_value.
Qed.

Lemma respects_import_stmt (w : world) (g : gmap string pyval) (name : string) :
  resp (import_stmt w g name).
Proof.
  unfold import_stmt. destruct (g !! "__import__");
    auto using respects_raise, respects_call_value.
Qed.

Lemma respects_guarded (m : M unit) :
  resp m ->
  resp (try_except (m ;; ret true)%py (except_Exception (ret false))).
Proof.
  intros Hm. apply respects_try_except.
  - apply respects_bind; auto using respects_ret.
  - intros e h. unfold except_Exception.
    destruct (isinstance e "Exception"); [|discriminate].
    intros [= <-]. apply respects_ret.
Qed.

Lemma respects_exec (w : world) (g : gmap string pyval) (armed : bool) (p : prog) :
  resp (exec w g armed p).
Proof.
  induction p; cbn [exec];
    auto using respects_ret, respects_raise.
  - apply respects_bind; auto.
  - apply respects_bind; auto.
  - apply respects_bind; auto using respects_import_stmt.
  - apply respects_bind; [apply respects_guarded, respects_import_stmt|].
    intros [|]; assumption.
  - apply respects_bind; auto using respects_call_name.
  - apply respects_bind; [apply respects_guarded, respects_call_name|].
    intros [|]; assumption.
  - apply respects_if; auto using respects_raise, respects_hang.
Qed.

(** The worker as a whole, for a relation that admits the results the
    worker enqueues. *)
Variables (w : world) (timeout memory_mb : Z).
Hypothesis R_put : forall r, worker_result w timeout r -> resp (put r).

Lemma respects_setrlimit (r : rlimit) (soft hard : Z) :
  resp (setrlimit w r soft hard).
Proof.
  unfold setrlimit. destruct (setrlimit_raises w r soft hard);
    auto using respects_raise.
Qed.

Lemma respects_py_compile (code : string) : resp (py_compile w code).
Proof.
  unfold py_compile. destruct (compile w code);
    auto using respects_raise, respects_ret.
Qed.

Lemma respects_inner_handlers (e : exn) (h : M unit) :
  inner_handlers w timeout memory_mb e = Some h -> resp h.
Proof.
  unfold inner_handlers.
  destruct (isinstance e "SyntaxError");
    [|destruct (isinstance e "TimeoutError");
      [|destruct (isinstance e "MemoryError");
        [|destruct (isinstance e "Exception"); [|discriminate]]]];
    intros [= <-]; (apply respects_bind; [apply respects_get|]);
    intros s; apply R_put; try apply wr_timeout;
    apply wr_failure; simpl; auto.
Qed.

Lemma respects_outer_handler (e : exn) (h : M unit) :
  outer_handler w e = Some h -> resp h.
Proof.
  unfold outer_handler. destruct (isinstance e "Exception"); [|discriminate].
  intros [= <-]. apply R_put, wr_failure; simpl; auto.
Qed.

Lemma respects_worker (code : string) :
  resp (_execute_code w code timeout memory_mb).
Proof.
  unfold _execute_code.
  apply respects_try_except; [|apply respects_outer_handler].
  apply respects_bind.
  { apply respects_if; [|apply respects_ret].
    repeat (apply respects_bind; [apply respects_setrlimit|intros _]).
    apply respects_setrlimit. }
  intros _. apply respects_bind.
  { apply respects_if; auto using respects_ret. }
  intros _. apply respects_try_finally.
  2:{ apply respects_if; auto using respects_ret. }
  apply respects_try_except; [|apply respects_inner_handlers].
  apply respects_bind; [apply respects_py_compile|]. intros p.
  apply respects_bind; [apply R_emit|]. intros _.
  apply respects_bind; [apply respects_exec; assumption|]. intros _.
  apply respects_bind; [apply respects_get|]. intros s.
  apply R_put, wr_success.
Qed.

End Respects.

(** The three relations satisfy the rules. *)

Lemma same_queue_exec (w : world) (g : gmap string pyval) (a : bool) (p : prog)
    (s : proc) :
  result_queue (snd (exec w g a p s)) = result_queue s.
Proof.
  apply (respects_exec same_queue); unfold respects, same_queue; try reflexivity.
  intros s1 s2 s3 H1 H2. congruence.
Qed.

Lemma log_grows_exec (w : world) (g : gmap string pyval) (a : bool) (p : prog)
    (s : proc) :
  exists l, log (snd (exec w g a p s)) = (log s ++ l)%list.
Proof.
  apply (respects_exec log_grows); unfold respects, log_grows; simpl.
  - intros s0. exists []. now rewrite app_nil_r.
  - intros s1 s2 s3 [l1 H1] [l2 H2]. exists (l1 ++ l2)%list.
    now rewrite H2, H1, app_assoc.
  - intros ev s0. eauto.
  - intros text s0. exists []. now rewrite app_nil_r.
  - intros text s0. exists []. now rewrite app_nil_r.
Qed.

Lemma worker_enqueues (w : world) (code : string) (timeout memory_mb : Z) :
  Forall (worker_result w timeout)
    (result_queue (snd (_execute_code w code timeout memory_mb fresh))).
Proof.
  destruct (respects_worker (enqueues w timeout)) with
    (w := w) (timeout := timeout) (memory_mb := memory_mb) (code := code)
    (s := fresh) as [l [E F]];
    unfold respects, enqueues; simpl.
  - intros s. exists []. now rewrite app_nil_r.
  - intros s1 s2 s3 [l1 [H1 F1]] [l2 [H2 F2]]. exists (l1 ++ l2)%list.
    split; [now rewrite H2, H1, app_assoc | now apply Forall_app].
  - intros ev s. exists []. now rewrite app_nil_r.
  - intros text s. exists []. now rewrite app_nil_r.
  - intros text s. exists []. now rewrite app_nil_r.
  - intros r Hr s. exists [r]. auto.
  - now rewrite E.
Qed.

(** ** The paths of the worker *)

Lemma limits_accepted_None (w : world) (timeout memory_mb : Z) :
  limits_accepted w timeout memory_mb = true ->
  has_setrlimit w = true ->
  setrlimit_raises w RLIMIT_AS (memory_mb * 1024 * 1024) (memory_mb * 1024 * 1024) = None
  /\ setrlimit_raises w RLIMIT_CPU (timeout + 1) (timeout + 2) = None
  /\ setrlimit_raises w RLIMIT_NPROC 0 0 = None.
Proof.
  unfold limits_accepted, limits. intros H Hrl. rewrite Hrl in H. simpl in H.
  repeat match type of H with
         | context [setrlimit_raises w ?r ?a ?b] =>
             destruct (setrlimit_raises w r a b); try discriminate H
         end.
  auto.
Qed.

(** Run the monadic operations that are applied to a known state. *)
Ltac worker_eval :=
  unfold try_except, try_finally, bind, ret, raise, hang, emit, put, get,
    py_compile, fresh;
  cbn [log result_queue stdout_capture stderr_capture app] in *.

(** Unfold the worker up to the point where the limits and the alarm are
    set, on a host that accepts the limits. *)
Ltac worker_setup w Hlim :=
  let Hs := fresh "Hs" in
  pose proof (limits_accepted_None _ _ _ Hlim) as Hs;
  unfold _execute_code, run_snippet, at_exec, setup_log, disarm, armed,
    safe_globals, limits, setrlimit in *;
  cbv zeta;
  destruct (has_setrlimit w);
  [destruct (Hs eq_refl) as (-> & -> & ->)|];
  clear Hs;
  destruct (has_SIGALRM w);
  worker_eval.





(** ** The supervisor *)


Lemma nominal_limits (w : world) (timeout memory_mb : Z) :
  nominal w timeout memory_mb = true ->
  limits_accepted w timeout memory_mb = true.
Proof.
  unfold nominal. intros H.
  apply andb_prop in H as [H _]. apply andb_prop in H as [H _]. exact H.
Qed.


(** ** The claims *)





Lemma consistent_worker_result (w : world) (timeout : Z) (r : result) :
  worker_result w timeout r -> consistent r.
Proof.
  intros [out err|out err|out err kind _]; unfold consistent; simpl;
    split; discriminate || reflexivity.
Qed.

Lemma worker_queue_consistent (w : world) (code : string) (timeout memory_mb : Z) :
  Forall consistent
    (result_queue (snd (_execute_code w code timeout memory_mb fresh))).
Proof.
  eapply Forall_impl; [apply worker_enqueues|].
  intros r. apply consistent_worker_result.
Qed.

Lemma supervisor_result (w : world) (code : string) (timeout memory_mb : Z)
    (P : result -> Prop) :
  P (timeout_result timeout) ->
  P no_result ->
  Forall P (result_queue (snd (_execute_code w code timeout memory_mb fresh))) ->
  match fst (execute_sandboxed w code timeout memory_mb) with
  | inr r => P r
  | inl e => exists m, start_fails w = Some m /\ e = OSError m
  end.
Proof.
  intros Ht Hn Hq. unfold execute_sandboxed.
  destruct (start_fails w) as [m|]; simpl; [eauto|].
  destruct (_execute_code w code timeout memory_mb fresh) as [o child].
  simpl in Hq.
  destruct (is_alive w timeout o); simpl; [exact Ht|].
  destruct (result_queue child) as [|r rest]; simpl; [exact Hn|].
  now inversion Hq.
Qed.

Lemma dangerous_lower (pattern : string) :
  In pattern Main.dangerous -> lower pattern = pattern.
Proof.
  unfold Main.dangerous. simpl.
  intros H. repeat (destruct H as [<-|H]; [reflexivity|]). contradiction.
Qed.

Lemma gateway_cases (w : world) (request : Main.ExecuteRequest) :
  (exists pattern,
      In pattern Main.dangerous
      /\ contains pattern (lower (Main.code request)) = true
      /\ Main.execute_code w request = (inr (Main.rejected pattern), []))
  \/ ((forall pattern, In pattern Main.dangerous ->
         contains pattern (lower (Main.code request)) = false)
      /\ Main.execute_code w request =
           match execute_sandboxed w (Main.code request) (Main.timeout request)
                   (Main.memory_mb request) with
           | (inr r, evs) => (inr (Main.of_result r), evs)
           | (inl e, evs) => (inr (Main.internal_error e), evs)
           end).
Proof.
  unfold Main.execute_code.
  destruct (find _ Main.dangerous) as [pattern|] eqn:F.
  - left. exists pattern. apply find_some in F as [Hin Hc].
    rewrite (dangerous_lower _ Hin) in Hc. auto.
  - right. split.
    + intros pattern Hin. pose proof (find_none _ _ F _ Hin) as Hc.
      simpl in Hc. now rewrite (dangerous_lower _ Hin) in Hc.
    + pose proof (supervisor_result w (Main.code request)
                    (Main.timeout request) (Main.memory_mb request)
                    (fun _ => True) I I) as H.
      destruct (execute_sandboxed _ _ _ _) as [[e|r] evs]; [|reflexivity].
      simpl in H. destruct H as (m & _ & ->).
      { apply Forall_forall. trivial. }
      reflexivity.
Qed.

(** C3. On every path, from the worker's queue through the supervisor to
    the response of the endpoint, [error_type] is [None] exactly when
    [success] is [True]. *)
Theorem C3_error_type_none_iff_success (w : world) (code : string)
    (timeout memory_mb : Z) (request : Main.ExecuteRequest) :
  Forall consistent
    (result_queue (snd (_execute_code w code timeout memory_mb fresh)))
  /\ match fst (execute_sandboxed w code timeout memory_mb) with
     | inr r => consistent r
     | inl e => exists m, start_fails w = Some m /\ e = OSError m
     end
  /\ exists resp,
       fst (Main.execute_code w request) = inr resp
       /\ (Main.error_type resp = None <-> Main.success resp = true).
Proof.
  split; [apply worker_queue_consistent|]. split.
  - apply supervisor_result; try apply worker_queue_consistent;
      unfold consistent; simpl; split; discriminate.
  - destruct (gateway_cases w request) as [(pattern & _ & _ & ->)|[_ ->]].
    + eexists; split; [reflexivity|]. simpl. split; discriminate.
    + pose proof (supervisor_result w (Main.code request)
                    (Main.timeout request) (Main.memory_mb request)
                    consistent) as H.
      destruct (execute_sandboxed _ _ _ _) as [[e|r] evs]; simpl in *.
      * eexists; split; [reflexivity|]. simpl. split; discriminate.
      * eexists; split; [reflexivity|]. simpl.
        apply H; try apply worker_queue_consistent;
          unfold consistent; simpl; split; discriminate.
Qed.

Lemma prefilter_rejects (w : world) (request : Main.ExecuteRequest)
    (pattern : string) :
  In pattern Main.dangerous ->
  contains pattern (lower (Main.code request)) = true ->
  exists matched,
    In matched Main.dangerous
    /\ contains matched (lower (Main.code request)) = true
    /\ Main.execute_code w request = (inr (Main.rejected matched), []).
Proof.
  intros Hin Hc.
  destruct (gateway_cases w request) as [(matched & Hm & Hcm & E)|[Hno _]].
  - exists matched. auto.
  - rewrite (Hno _ Hin) in Hc. discriminate.
Qed.

(** C9. When the pre-filter of the endpoint finds a disallowed pattern in
    the lower-cased source, the request is answered at once with
    [success = False], an empty [stdout], [error_type = "runtime"] and a
    [SecurityError] message naming a pattern that occurs, and no worker
    process is started. *)
Theorem C9_prefilter_short_circuits (w : world) (request : Main.ExecuteRequest)
    (pattern : string) :
  In pattern Main.dangerous ->
  contains pattern (lower (Main.code request)) = true ->
  exists matched,
    In matched Main.dangerous
    /\ contains matched (lower (Main.code request)) = true
    /\ Main.execute_code w request
       = (inr {| Main.stdout := "";
                 Main.stderr := "SecurityError: '" ++ matched
                                  ++ "' is not allowed in the sandbox";
                 Main.success := false;
                 Main.error_type := Some "runtime";
                 Main.execution_time_ms := 0 |},
          [])
    /\ ~ In Start (snd (Main.execute_code w request)).
Proof.
  intros Hin Hc.
  destruct (prefilter_rejects w request pattern Hin Hc)
    as (matched & Hm & Hcm & E).
  exists matched. rewrite E. simpl. auto.
Qed.

Lemma C9_witness :
  exists matched,
    In matched Main.dangerous
    /\ contains matched (lower "import socket") = true
    /\ Main.execute_code Demo.unix
         {| Main.code := "import socket"; Main.timeout := 5; Main.memory_mb := 50 |}
       = (inr {| Main.stdout := "";
                 Main.stderr := "SecurityError: '" ++ matched
                                  ++ "' is not allowed in the sandbox";
                 Main.success := false;
                 Main.error_type := Some "runtime";
                 Main.execution_time_ms := 0 |},
          [])
    /\ ~ In Start
           (snd (Main.execute_code Demo.unix
                   {| Main.code := "import socket"; Main.timeout := 5;
                      Main.memory_mb := 50 |})).
Proof.
  apply (C9_prefilter_short_circuits Demo.unix
           {| Main.code := "import socket"; Main.timeout := 5; Main.memory_mb := 50 |}
           "import socket").
  - simpl. auto.
  - vm_compute. reflexivity.
Defined.

(** C10. The pre-filter is a case-insensitive substring match over the
    whole source: whenever some stretch of the submitted code, wherever it
    stands, lower-cases to one of the eight patterns, the endpoint
    answers with [success = False], [error_type = "runtime"] and
    [execution_time_ms = 0] and starts no worker. *)
Theorem C10_prefilter_is_case_insensitive_substring (w : world)
    (request : Main.ExecuteRequest) (pattern before occurrence after : string) :
  In pattern ["import os"; "import subprocess"; "import socket";
              "import shutil"; "__import__"; "eval("; "exec("; "compile("] ->
  Main.code request = before ++ occurrence ++ after ->
  lower occurrence = pattern ->
  exists resp,
    Main.execute_code w request = (inr resp, [])
    /\ Main.success resp = false
    /\ Main.error_type resp = Some "runtime"
    /\ Main.execution_time_ms resp = 0%Z
    /\ Main.stdout resp = "".
Proof.
  intros Hin Hcode Hlow.
  assert (Hc : contains pattern (lower (Main.code request)) = true).
  { rewrite Hcode, !lower_app, Hlow. apply contains_intro. }
  destruct (prefilter_rejects w request pattern Hin Hc)
    as (matched & _ & _ & E).
  eexists. split; [exact E|]. simpl. auto.
Qed.

Lemma C10_witness :
  exists resp,
    Main.execute_code Demo.unix
      {| Main.code := "note = 'please Import OS.path for me'";
         Main.timeout := 5; Main.memory_mb := 50 |} = (inr resp, [])
    /\ Main.success resp = false
    /\ Main.error_type resp = Some "runtime"
    /\ Main.execution_time_ms resp = 0%Z
    /\ Main.stdout resp = "".
Proof.
  apply (C10_prefilter_is_case_insensitive_substring Demo.unix
           {| Main.code := "note = 'please Import OS.path for me'";
              Main.timeout := 5; Main.memory_mb := 50 |}
           "import os" "note = 'please " "Import OS" ".path for me'").
  - simpl. auto.
  - reflexivity.
  - reflexivity.
Defined.

(** ** What the worker's log looks like *)


(** One step of the case analysis of a run of the worker. *)
Ltac worker_case :=
  match goal with
  | |- context [match setrlimit_raises ?w ?r ?a ?b with _ => _ end] =>
      destruct (setrlimit_raises w r a b)
  | |- context [match compile ?w ?c with _ => _ end] =>
      destruct (compile w c)
  | |- context [outer_handler ?w ?e] =>
      unfold outer_handler; destruct (isinstance e "Exception")
  | |- context [inner_handlers ?w ?t ?m ?e] =>
      unfold inner_handlers;
      destruct (isinstance e "SyntaxError");
      [|destruct (isinstance e "TimeoutError");
        [|destruct (isinstance e "MemoryError");
          [|destruct (isinstance e "Exception")]]]
  | |- context [exec ?w ?g ?a ?p ?s] =>
      let l := fresh "l" in
      let H := fresh "Hlog" in
      destruct (log_grows_exec w g a p s) as [l H];
      destruct (exec w g a p s) as [[[]|?|] ?];
      cbn [snd log] in H
  end; worker_eval.


Lemma append_assoc (a b c : string) : (a ++ b) ++ c = a ++ b ++ c.
Proof.
  induction a as [|x a IH]; [reflexivity|].
  rewrite !append_cons, IH. reflexivity.
Qed.



(** ** Imports *)

Lemma denylist_test (B : gset string) (name : string) :
  (name ∈ B \/ exists m rest, m ∈ B /\ name = m ++ "." ++ rest) <->
  bool_decide (name ∈ B)
  || existsb (fun m => startswith name (m ++ ".")) (elements B) = true.
Proof.
  rewrite orb_true_iff, bool_decide_eq_true, existsb_exists.
  split; (intros [H|H]; [left; exact H | right]).
  - destruct H as (m & rest & Hm & ->). exists m. split.
    + apply list_elem_of_In, elem_of_elements, Hm.
    + unfold startswith. rewrite <- append_assoc. apply prefix_app.
  - destruct H as (m & Hm & Hp).
    apply list_elem_of_In, elem_of_elements in Hm.
    apply prefix_split in Hp as [rest ->].
    exists m, rest. rewrite append_assoc. auto.
Qed.


Lemma safe_globals_import (w : world) :
  safe_globals w !! "__import__" = Some SafeImport.
Proof. unfold safe_globals. apply lookup_insert_eq. Qed.














(** ** Files *)

Lemma safe_globals_open (w : world) : safe_globals w !! "open" = Some SafeOpen.
Proof.
  unfold safe_globals, _create_safe_builtins.
  rewrite !lookup_insert_ne by discriminate. apply lookup_insert_eq.
Qed.

Lemma safe_open_denied (w : world) (file mode : string) (s : proc) :
  startswith file "/tmp" = false ->
  startswith file (gettempdir w) = false ->
  safe_open w file mode s
  = (Raised (PermissionError "File access denied: only /tmp is allowed"), s).
Proof.
  intros H1 H2. unfold safe_open. rewrite H1, H2. reflexivity.
Qed.

Lemma safe_open_prefix (w : world) (rest mode : string) (s : proc) :
  log (snd (safe_open w ("/tmp" ++ rest) mode s))
  = (log s ++ [Opened ("/tmp" ++ rest) mode])%list.
Proof.
  unfold safe_open, startswith. rewrite prefix_app. cbn [negb andb].
  unfold bind, emit, reraise.
  destruct (original_open w ("/tmp" ++ rest) mode); reflexivity.
Qed.

(** C8 fails on the code.  The check of [safe_open] is a test on the
    first characters of the path: every path that begins with the four
    characters [/tmp] reaches the real [open], and so do paths that leave
    the directory again or that name a sibling of it. *)
Theorem C8_open_check_is_a_string_prefix :
  (forall w rest mode s,
      log (snd (safe_open w ("/tmp" ++ rest) mode s))
      = (log s ++ [Opened ("/tmp" ++ rest) mode])%list)
  /\ inside "/tmp" "/tmp/../etc/passwd" = false
  /\ inside "/tmp" "/tmpfoo/notes.txt" = false
  /\ inside "/tmp" "/tmp/notes.txt" = true
  /\ execute_sandboxed Demo.unix "open('/tmp/../etc/passwd')" 5 50
     = (inr {| stdout := ""; stderr := ""; success := true;
               error_type := None; execution_time_ms := 12 |},
        [Start; Join 7])
  /\ log (snd (_execute_code Demo.unix "open('/tmp/../etc/passwd')" 5 50 fresh))
     = [Setrlimit RLIMIT_AS 52428800 52428800; Setrlimit RLIMIT_CPU 6 7;
        Setrlimit RLIMIT_NPROC 0 0; Alarm 5; Exec;
        Opened "/tmp/../etc/passwd" "r"; Alarm 0]
  /\ log (snd (_execute_code Demo.unix "open('/tmpfoo/notes.txt', 'w')" 5 50 fresh))
     = [Setrlimit RLIMIT_AS 52428800 52428800; Setrlimit RLIMIT_CPU 6 7;
        Setrlimit RLIMIT_NPROC 0 0; Alarm 5; Exec;
        Opened "/tmpfoo/notes.txt" "w"; Alarm 0].
Proof.
  split; [exact safe_open_prefix|].
  repeat split; vm_compute; reflexivity.
Qed.

(** * Further properties of the executor and the endpoint *)

(** More snippets and hosts on which the properties are instantiated. *)

Module Demo2.
Import PyStr PyExc Executor.

Definition more_snippets (code : string) : exn + prog :=
  if code =? "eval('1+1')" then inr (Call "eval" ["1+1"] Done)
  else if code =? "open('notes.txt')" then inr (Call "open" ["notes.txt"] Done)
  else if code =? "__import__('socket')" then
    inr (Call "__import__" ["socket"] Done)
  else if code =? "print('a'); raise TimeoutError('slow')" then
    inr (Write ("a" ++ nl) (Raise (TimeoutError "slow")))
  else if code =? "print('a'); raise SyntaxError('bad')" then
    inr (Write ("a" ++ nl) (Raise (SyntaxError "bad" None)))
  else if code =? "print('a'); sys.exit(3)" then
    inr (Write ("a" ++ nl) (Raise (SystemExit "3")))
  else if code =? "print('a'); print('b', file=sys.stderr); print('c')" then
    inr (Write ("a" ++ nl) (WriteErr ("b" ++ nl) (Write ("c" ++ nl) Done)))
  else if code =? "print('a'); print('b', file=sys.stderr); 1/0" then
    inr (Write ("a" ++ nl)
           (WriteErr ("b" ++ nl) (Raise (ZeroDivisionError "division by zero"))))
  else inr Done.

(** A host whose [setrlimit] refuses the limits listed in [refused] with a
    [ValueError], and whose [process.start()] fails or not. *)
Definition host2 (refused : list rlimit) (start : option string) : world :=
  {| has_setrlimit := true;
     has_SIGALRM := true;
     setrlimit_raises := fun r _ _ =>
       if existsb (fun r' =>
                     match r, r' with
                     | RLIMIT_AS, RLIMIT_AS
                     | RLIMIT_CPU, RLIMIT_CPU
                     | RLIMIT_NPROC, RLIMIT_NPROC => true
                     | _, _ => false
                     end) refused
       then Some (ValueError "not allowed to raise maximum limit")
       else None;
     gettempdir := "/tmp";
     dir_builtins := Demo.builtin_names;
     compile := more_snippets;
     original_import := fun _ => None;
     original_open := fun _ _ => None;
     call_builtin := fun _ _ => None;
     time_start := 100 # 1;
     time_end := 100012 # 1000;
     start_fails := start;
     wall_time := 1 # 20 |}.

Definition unix2 : world := host2 [] None.

End Demo2.

(** Further notions the properties are stated with. *)

Module Obs2.
Import PyStr PyExc Executor Obs.

(** The first limit the platform refuses: the limits applied before it
    and the exception [setrlimit] raises for it. *)
Fixpoint refusal (w : world) (applied todo : list event)
    : option (list event * exn) :=
  match todo with
  | [] => None
  | Setrlimit r soft hard :: rest =>
      match setrlimit_raises w r soft hard with
      | Some e => Some (applied, e)
      | None => refusal w (applied ++ [Setrlimit r soft hard]) rest
      end
  | _ :: rest => refusal w applied rest
  end.

Definition first_refusal (w : world) (timeout memory_mb : Z)
    : option (list event * exn) :=
  refusal w [] (limits timeout memory_mb).



End Obs2.

(** ** The restricted builtins *)

Lemma safe_builtins_fold (B : gset string) (names : list string)
    (acc : gmap string pyval) (n : string) :
  fold_left
    (fun (safe : gmap string pyval) (name : string) =>
       if startswith name "_" && negb (name =? "__name__") then safe
       else if bool_decide (lower name ∈ B) then safe
       else <[name := Builtin name]> safe)
    names acc !! n
  = if existsb (fun name =>
                  (name =? n)
                  && negb (startswith name "_" && negb (name =? "__name__"))
                  && negb (bool_decide (lower name ∈ B))) names
    then Some (Builtin n)
    else acc !! n.
Proof.
  revert acc. induction names as [|x names IH]; intros acc; [reflexivity|].
  cbn [fold_left existsb]. rewrite IH. clear IH.
  destruct (existsb _ names); [now rewrite orb_true_r|]. rewrite orb_false_r.
  destruct (startswith x "_" && negb (x =? "__name__")).
  { now rewrite andb_false_r. }
  destruct (bool_decide (lower x ∈ B)).
  { now rewrite andb_false_r. }
  rewrite !andb_true_r.
  destruct (String.eqb_spec x n) as [->|ne].
  - apply lookup_insert_eq.
  - now apply lookup_insert_ne.
Qed.

Lemma safe_globals_lookup (w : world) (n : string) :
  n <> "__import__" -> n <> "__builtins__" -> n <> "__name__" -> n <> "open" ->
  safe_globals w !! n
  = if existsb (fun name =>
                  (name =? n)
                  && negb (startswith name "_" && negb (name =? "__name__"))
                  && negb (bool_decide (lower name ∈ BLOCKED_BUILTINS)))
         (dir_builtins w)
    then Some (Builtin n)
    else None.
Proof.
  intros H1 H2 H3 H4. unfold safe_globals, _create_safe_builtins.
  rewrite !lookup_insert_ne by congruence.
  now rewrite safe_builtins_fold, lookup_empty.
Qed.





Lemma public_name_not_special (n : string) :
  startswith n "_" = false -> lower n ∉ BLOCKED_BUILTINS ->
  n <> "__import__" /\ n <> "__builtins__" /\ n <> "__name__" /\ n <> "open".
Proof.
  intros Hu Hb.
  repeat split; intros ->; try discriminate Hu.
  apply Hb. vm_compute. reflexivity.
Qed.

(** X2. What the snippet does find in its globals: every public name of
    [dir(builtins)] that is not blocked is bound to the builtin itself,
    and [open], [__import__], [__name__] and [__builtins__] are bound to
    the guarded [open], the guarded import, ["__main__"] and the
    dictionary itself, whether or not [dir(builtins)] lists them. *)
Theorem public_builtins_are_kept (w : world) (name : string) :
  In name (dir_builtins w) ->
  startswith name "_" = false ->
  lower name ∉ BLOCKED_BUILTINS ->
  safe_globals w !! name = Some (Builtin name)
  /\ safe_globals w !! "open" = Some SafeOpen
  /\ safe_globals w !! "__import__" = Some SafeImport
  /\ safe_globals w !! "__name__" = Some (StrVal "__main__")
  /\ safe_globals w !! "__builtins__" = Some DictSelf.
Proof.
  intros Hin Hu Hb.
  destruct (public_name_not_special name Hu Hb) as (H1 & H2 & H3 & H4).
  split; [|split; [apply safe_globals_open|split; [apply safe_globals_import|]]].
  - rewrite safe_globals_lookup by assumption.
    destruct (existsb _ (dir_builtins w)) eqn:E; [reflexivity|].
    assert (existsb
              (fun x => (x =? name)
                        && negb (startswith x "_" && negb (x =? "__name__"))
                        && negb (bool_decide (lower x ∈ BLOCKED_BUILTINS)))
              (dir_builtins w) = true) as E'; [|congruence].
    apply existsb_exists. exists name. split; [exact Hin|].
    rewrite String.eqb_refl, Hu, (bool_decide_eq_false_2 _ Hb).
    reflexivity.
  - unfold safe_globals, _create_safe_builtins. split.
    + rewrite !lookup_insert_ne by discriminate. apply lookup_insert_eq.
    + rewrite lookup_insert_ne by discriminate. apply lookup_insert_eq.
Qed.

Lemma public_builtins_are_kept_witness :
  safe_globals Demo.unix !! "len" = Some (Builtin "len")
  /\ safe_globals Demo.unix !! "open" = Some SafeOpen
  /\ safe_globals Demo.unix !! "__import__" = Some SafeImport
  /\ safe_globals Demo.unix !! "__name__" = Some (StrVal "__main__")
  /\ safe_globals Demo.unix !! "__builtins__" = Some DictSelf.
Proof.
  apply (public_builtins_are_kept Demo.unix "len").
  - simpl. tauto.
  - reflexivity.
  - intros H. vm_compute in H. discriminate H.
Defined.

(** ** Files and imports *)




Lemma prefix_first_char (p s : string) :
  String.prefix "/" p = true -> String.prefix p s = true ->
  String.prefix "/" s = true.
Proof.
  intros Hp Hs.
  destruct p as [|c p]; [cbv in Hp; discriminate Hp|].
  destruct s as [|d s]; [cbv in Hs; discriminate Hs|].
  cbn [String.prefix] in *.
  destruct (ascii_dec "/" c) as [<-|]; [|discriminate Hp].
  destruct (ascii_dec "/" d) as [<-|ne]; [destruct s; reflexivity|].
  discriminate Hs.
Qed.

(** X4. Where the temporary directory is an absolute path, [safe_open]
    refuses every relative path, the empty path included, whatever the
    mode, and leaves the process as it was. *)
Theorem relative_paths_are_refused (w : world) (file mode : string) (s : proc) :
  startswith (gettempdir w) "/" = true ->
  startswith file "/" = false ->
  safe_open w file mode s
  = (Raised (PermissionError "File access denied: only /tmp is allowed"), s).
Proof.
  unfold startswith. intros Hd Hf. apply safe_open_denied; unfold startswith.
  - destruct (String.prefix "/tmp" file) eqn:E; [|reflexivity].
    rewrite (prefix_first_char "/tmp" file eq_refl E) in Hf. discriminate.
  - destruct (String.prefix (gettempdir w) file) eqn:E; [|reflexivity].
    rewrite (prefix_first_char _ file Hd E) in Hf. discriminate.
Qed.

Lemma relative_paths_are_refused_witness :
  safe_open Demo.unix "tmp/notes.txt" "w" fresh
  = (Raised (PermissionError "File access denied: only /tmp is allowed"), fresh).
Proof.
  apply (relative_paths_are_refused Demo.unix "tmp/notes.txt" "w" fresh);
    reflexivity.
Defined.

(** X5. [safe_import] turns away the denylisted names and only those:
    any other name is handed to the real import, whose exception, if it
    raises one, is what the snippet sees. *)
Theorem other_modules_reach_the_real_import (w : world) (name : string)
    (s : proc) :
  ~ denylisted name ->
  safe_import w name s
  = (match original_import w name with
     | Some e => Raised e
     | None => Ok tt
     end,
     {| stdout_capture := stdout_capture s;
        stderr_capture := stderr_capture s;
        result_queue := result_queue s;
        log := log s ++ [Imported name] |}).
Proof.
  intros H. unfold safe_import.
  destruct (bool_decide (name ∈ BLOCKED_MODULES)
            || existsb (fun m => startswith name (m ++ "."))
                 (elements BLOCKED_MODULES)) eqn:E.
  - exfalso. apply H. apply (proj2 (denylist_test BLOCKED_MODULES name)), E.
  - unfold bind, emit, reraise. destruct (original_import w name); reflexivity.
Qed.

Lemma not_denylisted_os : ~ denylisted "os".
Proof.
  intros H. apply (proj1 (denylist_test BLOCKED_MODULES "os")) in H.
  vm_compute in H. discriminate H.
Qed.

Lemma other_modules_reach_the_real_import_witness :
  safe_import Demo.unix "os" fresh
  = (Ok tt,
     {| stdout_capture := ""; stderr_capture := ""; result_queue := [];
        log := [Imported "os"] |}).
Proof.
  apply (other_modules_reach_the_real_import Demo.unix "os" fresh
           not_denylisted_os).
Defined.



(** ** Exceptions that escape the snippet *)



Lemma worker_unhandled (w : world) (code : string) (timeout memory_mb : Z)
    (p : prog) (e : exn) (s1 : proc) :
  limits_accepted w timeout memory_mb = true ->
  compile w code = inr p ->
  run_snippet w timeout memory_mb p = (Raised e, s1) ->
  isinstance e "SyntaxError" = false ->
  isinstance e "TimeoutError" = false ->
  isinstance e "MemoryError" = false ->
  isinstance e "Exception" = false ->
  _execute_code w code timeout memory_mb fresh =
    (Raised e,
     {| stdout_capture := stdout_capture s1;
        stderr_capture := stderr_capture s1;
        result_queue := [];
        log := log s1 ++ disarm w |}).
Proof.
  intros Hlim Hc Hrun H1 H2 H3 H4.
  assert (Hq : result_queue s1 = []).
  { change s1 with (snd (@Raised unit e, s1)). rewrite <- Hrun.
    apply same_queue_exec. }
  destruct s1 as [out1 err1 q1 log1]. cbn [result_queue] in Hq. subst q1.
  worker_setup w Hlim.
  all: rewrite Hc; worker_eval; rewrite Hrun; worker_eval;
    unfold inner_handlers, outer_handler; rewrite H1, H2, H3, H4;
    worker_eval; rewrite ?H4; worker_eval;
    rewrite ?app_nil_r; reflexivity.
Qed.





(** X9. An exception that is not an [Exception], such as the
    [SystemExit] of [sys.exit()], passes every [except] clause of the
    worker: the alarm is cancelled, nothing is put on the queue, and the
    caller is told ["Execution failed: no result returned"]; what the
    snippet had written is lost. *)
Theorem escaping_base_exception_leaves_no_result (w : world) (code : string)
    (timeout memory_mb : Z) (p : prog) (e : exn) (s1 : proc) :
  nominal w timeout memory_mb = true ->
  compile w code = inr p ->
  run_snippet w timeout memory_mb p = (Raised e, s1) ->
  isinstance e "SyntaxError" = false ->
  isinstance e "TimeoutError" = false ->
  isinstance e "MemoryError" = false ->
  isinstance e "Exception" = false ->
  _execute_code w code timeout memory_mb fresh
  = (Raised e,
     {| stdout_capture := stdout_capture s1;
        stderr_capture := stderr_capture s1;
        result_queue := [];
        log := log s1 ++ disarm w |})
  /\ execute_sandboxed w code timeout memory_mb
     = (inr {| stdout := "";
               stderr := "Execution failed: no result returned";
               success := false;
               error_type := Some "runtime";
               execution_time_ms := 0 |},
        [Start; Join (timeout + 2)]).
Proof.
  intros Hn Hc Hrun H1 H2 H3 H4.
  pose proof (worker_unhandled w code timeout memory_mb p e s1
                (nominal_limits _ _ _ Hn) Hc Hrun H1 H2 H3 H4) as Hw.
  split; [exact Hw|].
  unfold nominal in Hn. apply andb_prop in Hn as [Hn Hwall].
  apply andb_prop in Hn as [_ Hs].
  unfold execute_sandboxed. destruct (start_fails w); [discriminate|].
  rewrite Hw. cbn [is_alive result_queue]. rewrite Hwall. reflexivity.
Qed.

Lemma escaping_base_exception_leaves_no_result_witness :
  _execute_code Demo2.unix2 "print('a'); sys.exit(3)" 5 50 fresh
  = (Raised (SystemExit "3"),
     {| stdout_capture := "a" ++ nl;
        stderr_capture := "";
        result_queue := [];
        log := setup_log Demo2.unix2 5 50 ++ [Exec; Alarm 0] |})
  /\ execute_sandboxed Demo2.unix2 "print('a'); sys.exit(3)" 5 50
     = (inr {| stdout := "";
               stderr := "Execution failed: no result returned";
               success := false;
               error_type := Some "runtime";
               execution_time_ms := 0 |},
        [Start; Join 7]).
Proof.
  apply (escaping_base_exception_leaves_no_result Demo2.unix2
           "print('a'); sys.exit(3)" 5 50
           (Write ("a" ++ nl) (Raise (SystemExit "3")))
           (SystemExit "3")
           (snd (run_snippet Demo2.unix2 5 50
                   (Write ("a" ++ nl) (Raise (SystemExit "3"))))));
    vm_compute; reflexivity.
Defined.

(** ** The worker as a whole *)

(** X10. When the platform refuses one of the three limits with an
    [Exception], the worker stops there: it sets no alarm, never compiles
    or runs the snippet, and reports a runtime error whose [stderr] is the
    text of that exception; the limits accepted before stay in force. *)
Theorem refused_limit_aborts_the_run (w : world) (code : string)
    (timeout memory_mb : Z) (applied : list event) (e : exn) :
  has_setrlimit w = true ->
  Obs2.first_refusal w timeout memory_mb = Some (applied, e) ->
  isinstance e "Exception" = true ->
  start_fails w = None ->
  Qle_bool (wall_time w) (inject_Z (timeout + 2)) = true ->
  execute_sandboxed w code timeout memory_mb
  = (inr {| stdout := "";
            stderr := exn_str e;
            success := false;
            error_type := Some "runtime";
            execution_time_ms := elapsed_ms w |},
     [Start; Join (timeout + 2)])
  /\ log (snd (_execute_code w code timeout memory_mb fresh)) = applied
  /\ quiet applied = true
  /\ ~ In (Alarm timeout) applied.
Proof.
  intros Hrl Hf He Hs Hwall.
  unfold Obs2.first_refusal, limits in Hf. cbn [Obs2.refusal app] in Hf.
  unfold execute_sandboxed, _execute_code, setrlimit. cbv zeta.
  rewrite Hs, Hrl.
  destruct (setrlimit_raises w RLIMIT_AS _ _) as [e1|];
    [|destruct (setrlimit_raises w RLIMIT_CPU _ _) as [e2|];
      [|destruct (setrlimit_raises w RLIMIT_NPROC _ _) as [e3|];
        [|discriminate Hf]]];
    injection Hf as <- <-; worker_eval; unfold outer_handler; rewrite He;
    worker_eval; cbn [is_alive snd log]; rewrite Hwall; cbn [negb];
    (split; [reflexivity|split; [reflexivity|split; [reflexivity|]]]);
    simpl; intuition discriminate.
Qed.

Lemma refused_limit_aborts_the_run_witness :
  execute_sandboxed (Demo2.host2 [RLIMIT_CPU] None) "print('hello')" 5 50
  = (inr {| stdout := "";
            stderr := "not allowed to raise maximum limit";
            success := false;
            error_type := Some "runtime";
            execution_time_ms := 12 |},
     [Start; Join 7])
  /\ log (snd (_execute_code (Demo2.host2 [RLIMIT_CPU] None)
                 "print('hello')" 5 50 fresh))
     = [Setrlimit RLIMIT_AS 52428800 52428800]
  /\ quiet [Setrlimit RLIMIT_AS 52428800 52428800] = true
  /\ ~ In (Alarm 5) [Setrlimit RLIMIT_AS 52428800 52428800].
Proof.
  apply (refused_limit_aborts_the_run (Demo2.host2 [RLIMIT_CPU] None)
           "print('hello')" 5 50
           [Setrlimit RLIMIT_AS 52428800 52428800]
           (ValueError "not allowed to raise maximum limit"));
    vm_compute; reflexivity.
Defined.

(** One step of the case analysis of a run, keeping what [exec] leaves
    of the queue and of the log. *)
Ltac worker_case_full :=
  match goal with
  | |- context [match setrlimit_raises ?w ?r ?a ?b with _ => _ end] =>
      destruct (setrlimit_raises w r a b)
  | |- context [match compile ?w ?c with _ => _ end] =>
      destruct (compile w c)
  | |- context [outer_handler ?w ?e] =>
      unfold outer_handler; destruct (isinstance e "Exception")
  | |- context [inner_handlers ?w ?t ?m ?e] =>
      unfold inner_handlers;
      destruct (isinstance e "SyntaxError");
      [|destruct (isinstance e "TimeoutError");
        [|destruct (isinstance e "MemoryError");
          [|destruct (isinstance e "Exception")]]]
  | |- context [exec ?w ?g ?a ?p ?s] =>
      let l := fresh "l" in
      let H := fresh "Hlog" in
      let Hq := fresh "Hq" in
      destruct (log_grows_exec w g a p s) as [l H];
      pose proof (same_queue_exec w g a p s) as Hq;
      destruct (exec w g a p s) as [[[]|?|] ?];
      cbn [snd log result_queue] in H, Hq
  end; worker_eval.

(** X11. The worker writes to the queue at most once, and exactly once
    when its function returns: a run that ends in an exception or never
    ends leaves the queue empty. *)
Theorem one_result_when_the_worker_returns (w : world) (code : string)
    (timeout memory_mb : Z) :
  match _execute_code w code timeout memory_mb fresh with
  | (Ok _, child) => exists r, result_queue child = [r]
  | (Raised _, child) => result_queue child = []
  | (Hang, child) => result_queue child = []
  end.
Proof.
  unfold _execute_code, setrlimit. cbv zeta.
  destruct (has_setrlimit w), (has_SIGALRM w); worker_eval;
    repeat worker_case_full;
    cbn [result_queue]; rewrite ?Hq; cbn [app];
    solve [reflexivity | eexists; reflexivity].
Qed.

(** X12. On a host with [SIGALRM], a worker whose function ends, by
    returning or by an exception, has cancelled the alarm it set: if the
    log has [Alarm timeout], its last event is [Alarm 0]. *)
Theorem the_alarm_is_cancelled (w : world) (code : string)
    (timeout memory_mb : Z) :
  has_SIGALRM w = true ->
  match _execute_code w code timeout memory_mb fresh with
  | (Hang, _) => True
  | (_, child) =>
      In (Alarm timeout) (log child) ->
      exists before, log child = (before ++ [Alarm 0])%list
  end.
Proof.
  intros Hal. unfold _execute_code, setrlimit. cbv zeta. rewrite Hal.
  destruct (has_setrlimit w); worker_eval;
    repeat worker_case;
    cbn [log];
    try exact I;
    solve [ intros _; eexists; reflexivity
          | intros _;
            match goal with
            | |- exists before, ?l = _ => exists (removelast l); reflexivity
            end
          | simpl; intuition discriminate ].
Qed.

Lemma the_alarm_is_cancelled_witness :
  exists before,
    log (snd (_execute_code Demo.unix "print(1/0)" 5 50 fresh))
    = (before ++ [Alarm 0])%list.
Proof.
  refine (the_alarm_is_cancelled Demo.unix "print(1/0)" 5 50 eq_refl _).
  vm_compute. auto 10.
Defined.

(** ** Output *)







(** ** The endpoint *)











(** ** Endless loops and the shape of results *)



(** X20. Whatever the snippet and the host do, [error_type] in a result
    of the executor and in a response of the endpoint is [None] or one of
    ["syntax"], ["runtime"], ["timeout"], ["memory"]; and a result marked
    ["timeout"] always carries [execution_time_ms = timeout * 1000]. *)
Theorem error_types_are_the_documented_ones (w : world) (code : string)
    (timeout memory_mb : Z) (request : Main.ExecuteRequest) :
  match fst (execute_sandboxed w code timeout memory_mb) with
  | inr r =>
      In (error_type r)
        [None; Some "syntax"; Some "runtime"; Some "timeout"; Some "memory"]
      /\ (error_type r = Some "timeout" ->
          execution_time_ms r = (timeout * 1000)%Z)
  | inl e => exists m, start_fails w = Some m /\ e = OSError m
  end
  /\ exists resp,
       fst (Main.execute_code w request) = inr resp
       /\ In (Main.error_type resp)
            [None; Some "syntax"; Some "runtime"; Some "timeout"; Some "memory"].
Proof.
  assert (Hkind : forall t r, worker_result w t r ->
            In (error_type r)
              [None; Some "syntax"; Some "runtime"; Some "timeout"; Some "memory"]
            /\ (error_type r = Some "timeout" ->
                execution_time_ms r = (t * 1000)%Z)).
  { intros t r [out err|out err|out err kind Hk]; cbn [error_type execution_time_ms].
    - split; [simpl; auto|discriminate].
    - split; [simpl; auto 6|reflexivity].
    - simpl in Hk. destruct Hk as [<-|[<-|[<-|[]]]];
        (split; [simpl; auto 6|discriminate]). }
  assert (Hsup : forall c t m,
            match fst (execute_sandboxed w c t m) with
            | inr r =>
                In (error_type r)
                  [None; Some "syntax"; Some "runtime"; Some "timeout";
                   Some "memory"]
                /\ (error_type r = Some "timeout" ->
                    execution_time_ms r = (t * 1000)%Z)
            | inl e => exists msg, start_fails w = Some msg /\ e = OSError msg
            end).
  { intros c t m.
    apply (supervisor_result w c t m
             (fun r =>
                In (error_type r)
                  [None; Some "syntax"; Some "runtime"; Some "timeout";
                   Some "memory"]
                /\ (error_type r = Some "timeout" ->
                    execution_time_ms r = (t * 1000)%Z))).
    - split; [simpl; auto 6|reflexivity].
    - split; [simpl; auto 6|discriminate].
    - eapply Forall_impl; [apply worker_enqueues|]. apply Hkind. }
  split; [apply Hsup|].
  destruct (gateway_cases w request) as [(pattern & _ & _ & ->)|[_ ->]].
  - eexists; split; [reflexivity|]. simpl. auto 6.
  - specialize (Hsup (Main.code request) (Main.timeout request)
                  (Main.memory_mb request)).
    destruct (execute_sandboxed _ _ _ _) as [[e|r] evs]; simpl in *.
    + eexists; split; [reflexivity|]. simpl. auto 6.
    + eexists; split; [reflexivity|]. apply Hsup.
Qed.
